(** * three.js: a rotating WebGL pentagon

    A shallow embedding of [src/three.js]: the [mat4] helper object
    (create, perspective, translate, rotate), the geometry built by
    [initBuffers], the per-frame [drawScene]/[render] pair, the four
    click handlers installed by [main], and the shader set-up
    ([loadShader], [initShaderProgram]).

    Modelling conventions.
    - JavaScript numbers are read as real numbers ([R]): every result
      below is a statement about the exact arithmetic the code writes
      down, not about IEEE rounding (nor about the narrowing to 32 bits
      done by [Float32Array]).
    - A [Float32Array] is a heap cell holding a [list R]; matrices are
      sixteen numbers in column-major order.  The [mat4] functions take
      *references* ([loc]) for [out] and [a], since the source writes
      through [out] and is called with [out] and [a] being the same array.
    - An indexed write outside a typed array is ignored by JavaScript,
      which is exactly what stdpp's list insert does.  An indexed read
      outside the array (JavaScript: [undefined]) is read as [0]; all
      results are about sixteen-element arrays, where this never happens.
    - [null] is [None]. *)

From Stdlib Require Import Reals Lra RNsatz.
From stdpp Require Import base option list gmap strings.

Open Scope R_scope.

#[global] Instance R_inhabited : Inhabited R := populate 0.

(** [===] on numbers. *)
#[global] Instance R_eq_dec : EqDecision R := Req_dec_T.

(** ** The heap of typed arrays *)

Abbreviation loc := nat (only parsing).
Abbreviation heap := (gmap nat (list R)) (only parsing).

(** Heap-threading computations. *)
Definition M (A : Type) : Type := heap -> A * heap.

Definition ret {A : Type} (x : A) : M A := fun h => (x, h).

Definition bind {A B : Type} (m : M A) (k : A -> M B) : M B :=
  fun h => let (x, h') := m h in k x h'.

Notation "'let*' x := m 'in' k" := (bind m (fun x => k))
  (at level 10, x name, m at level 99, k at level 200).
Notation "m ;; k" := (bind m (fun _ => k))
  (at level 100, k at level 200, right associativity).

(** [p[i]] *)
Definition load (p : loc) (i : nat) : M R :=
  fun h => (match h !! p with Some l => l !!! i | None => 0 end, h).

(** [p[i] = v] *)
Definition store (p : loc) (i : nat) (v : R) : M unit :=
  fun h => (tt, match h !! p with
                | Some l => <[p := <[i := v]> l]> h
                | None => h
                end).

(** [new Float32Array([...])] *)
Definition alloc (l : list R) : M loc :=
  fun h => let p := fresh (dom h) in (p, <[p := l]> h).

(** The array a reference points to (the empty array for a dangling one). *)
Definition deref (h : heap) (p : loc) : list R := default [] (h !! p).

Definition vec3 : Type := R * R * R.

(** ** Matrix operations ([const mat4 = { ... }]) *)

Module mat4.

Definition create : M loc :=
  alloc [1; 0; 0; 0;
         0; 1; 0; 0;
         0; 0; 1; 0;
         0; 0; 0; 1].

Definition perspective (out : loc) (fovy aspect near far : R) : M loc :=
  let f := 1 / tan (fovy / 2) in
  store out 0 (f / aspect) ;;
  store out 1 0 ;;
  store out 2 0 ;;
  store out 3 0 ;;
  store out 4 0 ;;
  store out 5 f ;;
  store out 6 0 ;;
  store out 7 0 ;;
  store out 8 0 ;;
  store out 9 0 ;;
  store out 10 ((far + near) / (near - far)) ;;
  store out 11 (-1) ;;
  store out 12 0 ;;
  store out 13 0 ;;
  store out 14 ((2 * far * near) / (near - far)) ;;
  store out 15 0 ;;
  ret out.

(** [out[i] = a[i]] *)
Definition copy (out a : loc) (i : nat) : M unit :=
  let* v := load a i in store out i v.

(** [out[i] = a[i0] * x + a[i1] * y + a[i2] * z + a[i3]] *)
Definition translate_row (out a : loc) (x y z : R) (i i0 i1 i2 i3 : nat) : M unit :=
  let* a0 := load a i0 in let* a1 := load a i1 in
  let* a2 := load a i2 in let* a3 := load a i3 in
  store out i (a0 * x + a1 * y + a2 * z + a3).

Definition translate (out a : loc) (v : vec3) : M loc :=
  let '(x, y, z) := v in
  copy out a 0 ;; copy out a 1 ;; copy out a 2 ;; copy out a 3 ;;
  copy out a 4 ;; copy out a 5 ;; copy out a 6 ;; copy out a 7 ;;
  copy out a 8 ;; copy out a 9 ;; copy out a 10 ;; copy out a 11 ;;
  translate_row out a x y z 12 0 4 8 12 ;;
  translate_row out a x y z 13 1 5 9 13 ;;
  translate_row out a x y z 14 2 6 10 14 ;;
  translate_row out a x y z 15 3 7 11 15 ;;
  ret out.

(** The guard [len < 0.000001]. *)
Definition EPSILON : R := 0.000001.

Definition rotate (out a : loc) (rad : R) (axis : vec3) : M (option loc) :=
  let '(x, y, z) := axis in
  let len := sqrt (x * x + y * y + z * z) in
  if Rlt_dec len EPSILON then ret None else
  let len := 1 / len in
  let x := x * len in
  let y := y * len in
  let z := z * len in
  let s := sin rad in
  let c := cos rad in
  let t := 1 - c in
  let* a00 := load a 0 in let* a01 := load a 1 in let* a02 := load a 2 in let* a03 := load a 3 in
  let* a10 := load a 4 in let* a11 := load a 5 in let* a12 := load a 6 in let* a13 := load a 7 in
  let* a20 := load a 8 in let* a21 := load a 9 in let* a22 := load a 10 in let* a23 := load a 11 in
  let b00 := x * x * t + c in
  let b01 := y * x * t + z * s in
  let b02 := z * x * t - y * s in
  let b10 := x * y * t - z * s in
  let b11 := y * y * t + c in
  let b12 := z * y * t + x * s in
  let b20 := x * z * t + y * s in
  let b21 := y * z * t - x * s in
  let b22 := z * z * t + c in
  store out 0 (a00 * b00 + a10 * b01 + a20 * b02) ;;
  store out 1 (a01 * b00 + a11 * b01 + a21 * b02) ;;
  store out 2 (a02 * b00 + a12 * b01 + a22 * b02) ;;
  store out 3 (a03 * b00 + a13 * b01 + a23 * b02) ;;
  store out 4 (a00 * b10 + a10 * b11 + a20 * b12) ;;
  store out 5 (a01 * b10 + a11 * b11 + a21 * b12) ;;
  store out 6 (a02 * b10 + a12 * b11 + a22 * b12) ;;
  store out 7 (a03 * b10 + a13 * b11 + a23 * b12) ;;
  store out 8 (a00 * b20 + a10 * b21 + a20 * b22) ;;
  store out 9 (a01 * b20 + a11 * b21 + a21 * b22) ;;
  store out 10 (a02 * b20 + a12 * b21 + a22 * b22) ;;
  store out 11 (a03 * b20 + a13 * b21 + a23 * b22) ;;
  (if decide (a <> out) then
     copy out a 12 ;; copy out a 13 ;; copy out a 14 ;; copy out a 15
   else ret tt) ;;
  ret (Some out).

End mat4.

(** ** Geometry ([initBuffers]) *)

Record Buffers := {
  position : list R;      (* the data handed to [gl.bufferData] *)
  vertexCount : nat
}.

(** One turn of the loop body: the three numbers pushed for index [i]. *)
Definition pushed (radius centerX centerY : R) (i : nat) : list R :=
  let angle := (INR i * 2 * PI / 5) - (PI / 2) in
  let x := centerX + radius * cos angle in
  let y := centerY + radius * sin angle in
  [x; y; 0].

(** [for (let i = 0; i < 5; i++) { ...; vertices.push(x, y, 0); }] *)
Definition pentagon (radius centerX centerY : R) : list R :=
  foldl (fun vertices i => vertices ++ pushed radius centerX centerY i)
        [] (seq 0 5).

Definition initBuffers : Buffers :=
  let radius := 0.8 in
  let centerX := 0 in
  let centerY := 0 in
  {| position := pentagon radius centerX centerY; vertexCount := 5 |}.

(** [gl.vertexAttribPointer(.., numComponents = 3, .., stride = 0,
    offset = 0)]: vertex [k] is made of the numbers [3k], [3k+1], [3k+2]. *)
Definition vertexAt (data : list R) (k : nat) : vec3 :=
  (data !!! (3 * k)%nat, data !!! (3 * k + 1)%nat, data !!! (3 * k + 2)%nat).

Definition norm (p : vec3) : R :=
  let '(x, y, z) := p in sqrt (x * x + y * y + z * z).

(** ** The vertex shader *)

Definition vec4 : Type := R * R * R * R.

(** GLSL [m * v] for a column-major [mat4] and a [vec4]. *)
Definition mulMV (m : list R) (v : vec4) : vec4 :=
  let '(x, y, z, w) := v in
  (m !!! 0%nat * x + m !!! 4%nat * y + m !!! 8%nat * z + m !!! 12%nat * w,
   m !!! 1%nat * x + m !!! 5%nat * y + m !!! 9%nat * z + m !!! 13%nat * w,
   m !!! 2%nat * x + m !!! 6%nat * y + m !!! 10%nat * z + m !!! 14%nat * w,
   m !!! 3%nat * x + m !!! 7%nat * y + m !!! 11%nat * z + m !!! 15%nat * w).

(** A three-component attribute read as a [vec4] gets [w = 1]. *)
Definition point (p : vec3) : vec4 := let '(x, y, z) := p in (x, y, z, 1).

(** The depth left after the perspective divide. *)
Definition ndc_z (clip : vec4) : R := let '(_, _, z, w) := clip in z / w.

(** ** One frame ([drawScene]) *)

Record Frame := {
  uProjectionMatrix : list R;
  uModelViewMatrix : list R;
  uColor : list R;
  drawn : nat                   (* [gl.drawArrays(gl.TRIANGLE_FAN, 0, n)] *)
}.

(** [gl.uniformMatrix4fv(location, false, m)] reads the array behind [m]. *)
Definition uniformMatrix4fv (m : loc) : M (list R) :=
  fun h => (deref h m, h).

Definition drawScene (clientWidth clientHeight : R) (buffers : Buffers)
    (color : list R) (rotationX rotationY : R) : M Frame :=
  let fieldOfView := 45 * PI / 180 in
  let aspect := clientWidth / clientHeight in
  let zNear := 0.1 in
  let zFar := 100.0 in
  let* projectionMatrix := mat4.create in
  mat4.perspective projectionMatrix fieldOfView aspect zNear zFar ;;
  let* modelViewMatrix := mat4.create in
  mat4.translate modelViewMatrix modelViewMatrix (0.0, 0.0, -3.0) ;;
  mat4.rotate modelViewMatrix modelViewMatrix rotationX (1, 0, 0) ;;
  mat4.rotate modelViewMatrix modelViewMatrix rotationY (0, 1, 0) ;;
  let* p := uniformMatrix4fv projectionMatrix in
  let* mv := uniformMatrix4fv modelViewMatrix in
  ret {| uProjectionMatrix := p; uModelViewMatrix := mv;
         uColor := color; drawn := vertexCount buffers |}.

(** ** The variables of [main] and the page *)

(** The [let] variables the closures of [main] share. *)
Record Vars := {
  color : list R;
  rotationX : R;
  rotationY : R;
  rotationSpeedX : R;
  rotationSpeedY : R;
  isRotating : bool
}.

(** The parts of the document the handlers write. *)
Record Page := {
  toggleRotation_textContent : string;
  shareSection_display : string;
  graphicsUrl_textContent : string;
  codeUrl_textContent : string
}.

Definition BLUE : list R := [0.2; 0.4; 0.8; 1.0].
Definition RED : list R := [0.8; 0.2; 0.2; 1.0].

Definition main_vars : Vars :=
  {| color := BLUE;
     rotationX := 0; rotationY := 0;
     rotationSpeedX := 0.01; rotationSpeedY := 0.005;
     isRotating := true |}.

(** [render]: draw, then advance the angles; the frame is what was drawn. *)
Definition render (clientWidth clientHeight : R) (buffers : Buffers)
    (s : Vars) : M (Frame * Vars) :=
  let* frame := drawScene clientWidth clientHeight buffers
                  (color s) (rotationX s) (rotationY s) in
  ret (frame,
       if isRotating s then
         {| color := color s;
            rotationX := rotationX s + rotationSpeedX s;
            rotationY := rotationY s + rotationSpeedY s;
            rotationSpeedX := rotationSpeedX s;
            rotationSpeedY := rotationSpeedY s;
            isRotating := isRotating s |}
       else s).

(** [requestAnimationFrame(render)]: one call of [render] per display
    refresh; [canvas] lists the client size of the canvas at each refresh. *)
Fixpoint ticks (canvas : list (R * R)) (buffers : Buffers) (s : Vars)
    : M (list Frame * Vars) :=
  match canvas with
  | [] => ret ([], s)
  | (w, h) :: rest =>
      let* r := render w h buffers s in
      let* r' := ticks rest buffers (snd r) in
      ret (fst r :: fst r', snd r')
  end.

(** *** Click handlers *)

Definition toggleRotation_click (st : Vars * Page) : Vars * Page :=
  let '(s, d) := st in
  let isRotating' := negb (isRotating s) in
  ({| color := color s;
      rotationX := rotationX s; rotationY := rotationY s;
      rotationSpeedX := rotationSpeedX s; rotationSpeedY := rotationSpeedY s;
      isRotating := isRotating' |},
   {| toggleRotation_textContent :=
        if isRotating' then "Pause Rotation" else "Resume Rotation";
      shareSection_display := shareSection_display d;
      graphicsUrl_textContent := graphicsUrl_textContent d;
      codeUrl_textContent := codeUrl_textContent d |}).

(** [color[0] === 0.2 && color[1] === 0.4 && color[2] === 0.8] *)
Definition is_blue (c : list R) : bool :=
  bool_decide (c !! 0%nat = Some 0.2) &&
  bool_decide (c !! 1%nat = Some 0.4) &&
  bool_decide (c !! 2%nat = Some 0.8).

Definition changeColor_click (st : Vars * Page) : Vars * Page :=
  let '(s, d) := st in
  ({| color := if is_blue (color s) then RED else BLUE;
      rotationX := rotationX s; rotationY := rotationY s;
      rotationSpeedX := rotationSpeedX s; rotationSpeedY := rotationSpeedY s;
      isRotating := isRotating s |},
   d).

Definition resetView_click (st : Vars * Page) : Vars * Page :=
  let '(s, d) := st in
  ({| color := color s;
      rotationX := 0; rotationY := 0;
      rotationSpeedX := rotationSpeedX s; rotationSpeedY := rotationSpeedY s;
      isRotating := isRotating s |},
   d).

(** [href] is [window.location.href]. *)
Definition shareButton_click (href : string) (st : Vars * Page) : Vars * Page :=
  let '(s, d) := st in
  (s,
   {| toggleRotation_textContent := toggleRotation_textContent d;
      shareSection_display :=
        if bool_decide (shareSection_display d = "none") then "block" else "none";
      graphicsUrl_textContent := href +:+ "#graphics-view";
      codeUrl_textContent := href +:+ "#code-view" |}).

(** ** Matrices as values

    What the [mat4] functions leave behind [out], written as functions on
    the sixteen numbers, and the textbook notions the specification
    speaks of (elementary translation, matrix product, last row). *)

Notation "m .[ i ]" := (m !!! i%nat)
  (at level 1, i at level 99, format "m .[ i ]").

Definition identity_matrix : list R :=
  [1; 0; 0; 0;
   0; 1; 0; 0;
   0; 0; 1; 0;
   0; 0; 0; 1].

Definition perspective_matrix (fovy aspect near far : R) : list R :=
  let f := 1 / tan (fovy / 2) in
  [f / aspect; 0; 0; 0;
   0; f; 0; 0;
   0; 0; (far + near) / (near - far); -1;
   0; 0; (2 * far * near) / (near - far); 0].

Definition translate_matrix (a : list R) (v : vec3) : list R :=
  let '(x, y, z) := v in
  [a.[0]; a.[1]; a.[2]; a.[3];
   a.[4]; a.[5]; a.[6]; a.[7];
   a.[8]; a.[9]; a.[10]; a.[11];
   a.[0] * x + a.[4] * y + a.[8] * z + a.[12];
   a.[1] * x + a.[5] * y + a.[9] * z + a.[13];
   a.[2] * x + a.[6] * y + a.[10] * z + a.[14];
   a.[3] * x + a.[7] * y + a.[11] * z + a.[15]].

Definition rotate_matrix (a : list R) (rad : R) (axis : vec3) : list R :=
  let '(x, y, z) := axis in
  let len := 1 / sqrt (x * x + y * y + z * z) in
  let x := x * len in
  let y := y * len in
  let z := z * len in
  let s := sin rad in
  let c := cos rad in
  let t := 1 - c in
  let b00 := x * x * t + c in
  let b01 := y * x * t + z * s in
  let b02 := z * x * t - y * s in
  let b10 := x * y * t - z * s in
  let b11 := y * y * t + c in
  let b12 := z * y * t + x * s in
  let b20 := x * z * t + y * s in
  let b21 := y * z * t - x * s in
  let b22 := z * z * t + c in
  [a.[0] * b00 + a.[4] * b01 + a.[8] * b02;
   a.[1] * b00 + a.[5] * b01 + a.[9] * b02;
   a.[2] * b00 + a.[6] * b01 + a.[10] * b02;
   a.[3] * b00 + a.[7] * b01 + a.[11] * b02;
   a.[0] * b10 + a.[4] * b11 + a.[8] * b12;
   a.[1] * b10 + a.[5] * b11 + a.[9] * b12;
   a.[2] * b10 + a.[6] * b11 + a.[10] * b12;
   a.[3] * b10 + a.[7] * b11 + a.[11] * b12;
   a.[0] * b20 + a.[4] * b21 + a.[8] * b22;
   a.[1] * b20 + a.[5] * b21 + a.[9] * b22;
   a.[2] * b20 + a.[6] * b21 + a.[10] * b22;
   a.[3] * b20 + a.[7] * b21 + a.[11] * b22;
   a.[12]; a.[13]; a.[14]; a.[15]].

(** The elementary translation by [v], column-major. *)
Definition spec_translation (v : vec3) : list R :=
  let '(x, y, z) := v in
  [1; 0; 0; 0;
   0; 1; 0; 0;
   0; 0; 1; 0;
   x; y; z; 1].

(** Entry (row [r], column [c]) of the product [a * b]; entry (r, c) of a
    column-major matrix sits at index [4 * c + r]. *)
Definition spec_mul_entry (a b : list R) (r c : nat) : R :=
  a.[r] * b.[4 * c] + a.[4 + r] * b.[4 * c + 1] +
  a.[8 + r] * b.[4 * c + 2] + a.[12 + r] * b.[4 * c + 3].

(** The matrix product [a * b], column by column. *)
Definition spec_mul (a b : list R) : list R :=
  flat_map (fun c => map (fun r => spec_mul_entry a b r c) (seq 0 4)) (seq 0 4).

(** Row 3 of a matrix: the elements at 3, 7, 11 and 15. *)
Definition last_row (m : list R) : list R := [m.[3]; m.[7]; m.[11]; m.[15]].


Definition X_AXIS : vec3 := (1, 0, 0).
Definition Y_AXIS : vec3 := (0, 1, 0).

(** The variables after one turn of [render] while rotating. *)
Definition advance (s : Vars) : Vars :=
  {| color := color s;
     rotationX := rotationX s + rotationSpeedX s;
     rotationY := rotationY s + rotationSpeedY s;
     rotationSpeedX := rotationSpeedX s;
     rotationSpeedY := rotationSpeedY s;
     isRotating := isRotating s |}.

(** A page to run the handlers on. *)
Definition sample_page : Page :=
  {| toggleRotation_textContent := "Pause Rotation";
     shareSection_display := "none";
     graphicsUrl_textContent := "";
     codeUrl_textContent := "" |}.

(** ** Further notions used to describe the code *)

(** The rotation the source builds in [b00 .. b22], as a 4x4 matrix: the
    axis is divided by its length first. *)
Definition rotation_matrix (rad : R) (axis : vec3) : list R :=
  let '(x, y, z) := axis in
  let len := 1 / sqrt (x * x + y * y + z * z) in
  let x := x * len in
  let y := y * len in
  let z := z * len in
  let s := sin rad in
  let c := cos rad in
  let t := 1 - c in
  [x * x * t + c; y * x * t + z * s; z * x * t - y * s; 0;
   x * y * t - z * s; y * y * t + c; z * y * t + x * s; 0;
   x * z * t + y * s; y * z * t - x * s; z * z * t + c; 0;
   0; 0; 0; 1].


Definition vadd (p q : vec3) : vec3 :=
  let '(x, y, z) := p in let '(x', y', z') := q in (x + x', y + y', z + z').

(** The first three components of a [vec4]. *)
Definition xyz (v : vec4) : vec3 := let '(x, y, z, _) := v in (x, y, z).

(** The distance between two points. *)
Definition dist (p q : vec3) : R :=
  let '(x, y, z) := p in let '(x', y', z') := q in
  norm (x - x', y - y', z - z').

(** A computation that writes to no array but [out]. *)
Definition writes_only {A : Type} (out : loc) (m : M A) : Prop :=
  forall h q, q <> out -> (m h).2 !! q = h !! q.

(** A matrix that keeps the distance between any two points (read as
    [vec4] with [w = 1], as the vertex shader reads positions). *)
Definition isometry (m : list R) : Prop :=
  forall p q,
    dist (xyz (mulMV m (point p))) (xyz (mulMV m (point q))) = dist p q.

(** ** What happens after [main] has returned

    The callbacks [main] leaves behind: [render], called again at every
    display refresh, and the four click handlers. *)

Inductive Event :=
| Refresh (clientWidth clientHeight : R)
| ToggleRotationClick
| ChangeColorClick
| ResetViewClick
| ShareButtonClick (href : string).

(** One callback; the frames it draws (none for a click) and the state
    it leaves. *)
Definition handle (buffers : Buffers) (e : Event) (st : Vars * Page)
    : M (list Frame * (Vars * Page)) :=
  match e with
  | Refresh w ht =>
      let* r := render w ht buffers st.1 in ret ([r.1], (r.2, st.2))
  | ToggleRotationClick => ret ([], toggleRotation_click st)
  | ChangeColorClick => ret ([], changeColor_click st)
  | ResetViewClick => ret ([], resetView_click st)
  | ShareButtonClick href => ret ([], shareButton_click href st)
  end.

(** The callbacks run one after the other, never two at a time. *)
Fixpoint run (buffers : Buffers) (events : list Event) (st : Vars * Page)
    : M (list Frame * (Vars * Page)) :=
  match events with
  | [] => ret ([], st)
  | e :: rest =>
      let* r := handle buffers e st in
      let* r' := run buffers rest r.2 in
      ret (r.1 ++ r'.1, r'.2)
  end.

(** The state a callback leaves, without the drawing. *)
Definition after (e : Event) (st : Vars * Page) : Vars * Page :=
  match e with
  | Refresh _ _ => (if isRotating st.1 then advance st.1 else st.1, st.2)
  | ToggleRotationClick => toggleRotation_click st
  | ChangeColorClick => changeColor_click st
  | ResetViewClick => resetView_click st
  | ShareButtonClick href => shareButton_click href st
  end.

(** What every callback keeps true of the variables of [main]. *)
Definition vars_ok (s : Vars) : Prop :=
  (color s = BLUE \/ color s = RED) /\
  rotationSpeedX s = 0.01 /\ rotationSpeedY s = 0.005 /\
  rotationX s = 2 * rotationY s /\ 0 <= rotationY s.


(** The length of the side of a regular pentagon inscribed in a circle. *)
Definition pentagon_side (radius : R) : R :=
  radius * sqrt (2 - 2 * cos (2 * PI / 5)).

(** ** Shaders ([loadShader], [initShaderProgram])

    The WebGL context and [alert] are outside the program.  A run is the
    list of the calls made on them, in order; what the context answers to
    a query is a function of the calls made so far, left open.  An object
    the context creates is named by the position of the call creating it. *)

Inductive ShaderType := VERTEX_SHADER | FRAGMENT_SHADER.

Inductive Call :=
| CreateShader (type : ShaderType)
| ShaderSource (shader : nat) (source : string)
| CompileShader (shader : nat)
| DeleteShader (shader : nat)
| CreateProgram
| AttachShader (program : nat) (shader : option nat)
| LinkProgram (program : nat)
| Alert (message : string).

(** Computations that make calls. *)
Definition G (A : Type) : Type := list Call -> A * list Call.

Definition gret {A : Type} (x : A) : G A := fun log => (x, log).

Definition gbind {A B : Type} (m : G A) (k : A -> G B) : G B :=
  fun log => let (x, log') := m log in k x log'.

Notation "'let+' x := m 'in' k" := (gbind m (fun x => k))
  (at level 10, x name, m at level 99, k at level 200).
Notation "m ;;+ k" := (gbind m (fun _ => k))
  (at level 100, k at level 200, right associativity).

(** A call that returns nothing. *)
Definition call (c : Call) : G unit := fun log => (tt, log ++ [c]).

(** A call that creates an object. *)
Definition make (c : Call) : G nat := fun log => (length log, log ++ [c]).

(** A query of the context. *)
Definition query {A : Type} (answer : list Call -> A) : G A :=
  fun log => (answer log, log).

Section WebGL.

(** [gl.getShaderParameter(shader, gl.COMPILE_STATUS)] *)
Variable COMPILE_STATUS : list Call -> nat -> bool.
(** [gl.getShaderInfoLog(shader)] *)
Variable getShaderInfoLog : list Call -> nat -> string.
(** [gl.getProgramParameter(program, gl.LINK_STATUS)] *)
Variable LINK_STATUS : list Call -> nat -> bool.
(** [gl.getProgramInfoLog(program)] *)
Variable getProgramInfoLog : list Call -> nat -> string.

Definition loadShader (type : ShaderType) (source : string) : G (option nat) :=
  let+ shader := make (CreateShader type) in
  call (ShaderSource shader source) ;;+
  call (CompileShader shader) ;;+
  let+ status := query (fun log => COMPILE_STATUS log shader) in
  if negb status then
    let+ info := query (fun log => getShaderInfoLog log shader) in
    call (Alert ("An error occurred compiling the shaders: " +:+ info)) ;;+
    call (DeleteShader shader) ;;+
    gret None
  else
    gret (Some shader).


End WebGL.

(** The calls that build the program: everything but the uploads of
    source text, the alerts and the deletions. *)
Definition builds (c : Call) : option Call :=
  match c with
  | CreateShader _ | CompileShader _ | CreateProgram
  | AttachShader _ _ | LinkProgram _ => Some c
  | ShaderSource _ _ | DeleteShader _ | Alert _ => None
  end.

Definition alerted (c : Call) : option string :=
  match c with Alert message => Some message | _ => None end.

Definition deleted (c : Call) : option nat :=
  match c with DeleteShader s => Some s | _ => None end.

(** * Results *)

(** ** Running heap computations *)

Section Run.
Context {A B : Type}.

Lemma bind_run (m : M A) (k : A -> M B) h x h' r :
  m h = (x, h') -> k x h' = r -> bind m k h = r.
Proof. unfold bind. intros -> ->. reflexivity. Qed.

Lemma load_run p i l h (k : R -> M B) r :
  h !! p = Some l -> k (l !!! i) h = r -> bind (load p i) k h = r.
Proof. unfold bind, load. intros -> ->. reflexivity. Qed.

Lemma store_run p i v l h (k : unit -> M B) r :
  h !! p = Some l -> k tt (<[p := <[i := v]> l]> h) = r ->
  bind (store p i v) k h = r.
Proof. unfold bind, store. intros -> ->. reflexivity. Qed.

Lemma bind_assoc {C : Type} (m : M A) (f : A -> M B) (g : B -> M C) h :
  bind (bind m f) g h = bind m (fun x => bind (f x) g) h.
Proof. unfold bind. destruct (m h). reflexivity. Qed.

Lemma ret_run (x : A) (k : A -> M B) h : bind (ret x) k h = k x h.
Proof. reflexivity. Qed.
End Run.

(** A sixteen-element array, element by element. *)
Lemma length16 {A : Type} (l : list A) :
  length l = 16%nat ->
  exists a0 a1 a2 a3 a4 a5 a6 a7 a8 a9 a10 a11 a12 a13 a14 a15,
    l = [a0; a1; a2; a3; a4; a5; a6; a7; a8; a9; a10; a11; a12; a13; a14; a15].
Proof.
  intros H.
  do 16 (destruct l as [|? l]; [discriminate H|]).
  destruct l; [|discriminate H].
  repeat eexists.
Qed.

Ltac explode l H :=
  let E := fresh in
  destruct (length16 l H) as (?&?&?&?&?&?&?&?&?&?&?&?&?&?&?&?&E); subst l.

Ltac find_cell :=
  first [ eassumption
        | apply lookup_insert_eq
        | rewrite lookup_insert_ne by done; eassumption ].

Ltac tidy :=
  rewrite ?insert_insert_eq;
  cbn [insert list_insert lookup_total list_lookup_total].

(** One statement of the source at a time, keeping the heap in the shape
    [<[out := l]> h]. *)
Ltac step :=
  lazymatch goal with
  | |- bind (bind _ _) _ _ = _ => rewrite bind_assoc
  | |- bind (ret _) _ _ = _ => rewrite ret_run
  | |- bind (load _ _) _ _ = _ => eapply load_run; [find_cell | tidy]
  | |- bind (store _ _ _) _ _ = _ => eapply store_run; [find_cell | tidy]
  end.

Lemma create_run h :
  mat4.create h = (fresh (dom h), <[fresh (dom h) := identity_matrix]> h).
Proof. reflexivity. Qed.

Lemma fresh_free (h : gmap nat (list R)) : h !! fresh (dom h) = None.
Proof. apply not_elem_of_dom, is_fresh. Qed.

Lemma perspective_run out fovy aspect near far O h :
  h !! out = Some O -> length O = 16%nat ->
  mat4.perspective out fovy aspect near far h =
    (out, <[out := perspective_matrix fovy aspect near far]> h).
Proof.
  intros Ho HO. explode O HO.
  unfold mat4.perspective, perspective_matrix.
  repeat step. reflexivity.
Qed.

Lemma translate_run out a v A O h :
  h !! a = Some A -> h !! out = Some O ->
  length A = 16%nat -> length O = 16%nat ->
  mat4.translate out a v h = (out, <[out := translate_matrix A v]> h).
Proof.
  intros Ha Ho HA HO. destruct v as [[x y] z].
  explode A HA. explode O HO.
  unfold mat4.translate, mat4.copy, mat4.translate_row, translate_matrix.
  destruct (decide (a = out)) as [->|Hne].
  - rewrite Ho in Ha. simplify_eq. repeat step. reflexivity.
  - repeat step. reflexivity.
Qed.

Lemma rotate_null out a rad axis h :
  norm axis < mat4.EPSILON -> mat4.rotate out a rad axis h = (None, h).
Proof.
  destruct axis as [[x y] z]. unfold norm, mat4.rotate. intros Hlen.
  destruct (Rlt_dec _ _) as [_|Hge]; [reflexivity | contradiction].
Qed.

Lemma rotate_run out a rad axis A O h :
  h !! a = Some A -> h !! out = Some O ->
  length A = 16%nat -> length O = 16%nat ->
  ~ norm axis < mat4.EPSILON ->
  mat4.rotate out a rad axis h = (Some out, <[out := rotate_matrix A rad axis]> h).
Proof.
  intros Ha Ho HA HO Hlen. destruct axis as [[x y] z].
  explode A HA. explode O HO.
  unfold norm in Hlen. unfold mat4.rotate, mat4.copy, rotate_matrix.
  destruct (Rlt_dec _ _) as [Hlt|_]; [contradiction|].
  destruct (decide (a = out)) as [->|Hne].
  - rewrite Ho in Ha. simplify_eq.
    repeat step. cbv zeta. repeat step.
    destruct (decide (out <> out)) as [Hd|_]; [congruence|].
    repeat step.
    reflexivity.
  - repeat step. cbv zeta. repeat step.
    destruct (decide (a <> out)) as [_|Hd]; [|contradiction].
    repeat step. reflexivity.
Qed.

(** ** The degenerate axis *)

Lemma norm_zero_axis : norm (0, 0, 0) < mat4.EPSILON.
Proof.
  unfold norm, mat4.EPSILON.
  replace (0 * 0 + 0 * 0 + 0 * 0) with 0 by lra.
  rewrite sqrt_0. lra.
Qed.

(** C3: for every heap (hence every input matrix), every angle and every
    axis whose Euclidean length is below the epsilon [0.000001], [rotate]
    returns [null]; it does not return a matrix. *)
Theorem rotate_degenerate_returns_null out a rad axis h :
  norm axis < mat4.EPSILON ->
  (mat4.rotate out a rad axis h).1 = None.
Proof. intros Hlen. rewrite rotate_null by assumption. reflexivity. Qed.

Lemma rotate_degenerate_returns_null_witness :
  norm (0, 0, 0) < mat4.EPSILON /\
  (mat4.rotate 0%nat 0%nat 1 (0, 0, 0) {[ 0%nat := identity_matrix ]}).1 = None.
Proof.
  split; [exact norm_zero_axis|].
  apply rotate_degenerate_returns_null. exact norm_zero_axis.
Defined.

(** C10: when the axis is shorter than the epsilon, [rotate] leaves the
    whole heap as it found it; in particular the array behind [out] holds
    the same numbers as before the call. *)
Theorem rotate_degenerate_leaves_out out a rad axis h :
  norm axis < mat4.EPSILON ->
  (mat4.rotate out a rad axis h).2 = h /\
  deref (mat4.rotate out a rad axis h).2 out = deref h out.
Proof. intros Hlen. rewrite rotate_null by assumption. split; reflexivity. Qed.

Lemma rotate_degenerate_leaves_out_witness :
  norm (0, 0, 0) < mat4.EPSILON /\
  deref (mat4.rotate 0%nat 0%nat 1 (0, 0, 0) {[ 0%nat := identity_matrix ]}).2 0%nat
    = deref {[ 0%nat := identity_matrix ]} 0%nat.
Proof.
  split; [exact norm_zero_axis|].
  apply (rotate_degenerate_leaves_out 0%nat 0%nat 1 (0, 0, 0)). exact norm_zero_axis.
Defined.

(** ** Translation *)

Lemma deref_insert (h : gmap nat (list R)) p l : deref (<[p := l]> h) p = l.
Proof. unfold deref. rewrite lookup_insert_eq. reflexivity. Qed.

Lemma translate_matrix_is_product A v :
  length A = 16%nat -> translate_matrix A v = spec_mul A (spec_translation v).
Proof.
  intros HA. destruct v as [[x y] z]. explode A HA.
  unfold translate_matrix, spec_mul, spec_mul_entry, spec_translation.
  cbn [flat_map map seq app Nat.add Nat.mul lookup_total list_lookup_total].
  repeat (f_equal; try ring).
Qed.

(** C8: [translate(out, a, v)] leaves behind [out] the product of the
    matrix [a] with the elementary translation by [v], the translation on
    the right; elements 0 to 11 are those of [a], and no other array of
    the heap changes. *)
Theorem translate_right_multiplies out a v A O h :
  h !! a = Some A -> h !! out = Some O ->
  length A = 16%nat -> length O = 16%nat ->
  (mat4.translate out a v h).1 = out /\
  (mat4.translate out a v h).2 = <[out := spec_mul A (spec_translation v)]> h /\
  deref (mat4.translate out a v h).2 out = spec_mul A (spec_translation v) /\
  forall i, (i < 12)%nat ->
    deref (mat4.translate out a v h).2 out !! i = A !! i.
Proof.
  intros Ha Ho HA HO.
  rewrite (translate_run out a v A O h) by assumption.
  rewrite <- translate_matrix_is_product by assumption.
  cbn [fst snd]. rewrite deref_insert.
  repeat split.
  intros i Hi. destruct v as [[x y] z]. explode A HA.
  do 12 (destruct i as [|i]; [reflexivity|]). lia.
Qed.

Lemma translate_right_multiplies_witness :
  deref (mat4.translate 0%nat 0%nat (0, 0, -3) {[ 0%nat := identity_matrix ]}).2 0%nat
    = spec_mul identity_matrix (spec_translation (0, 0, -3)).
Proof.
  apply (translate_right_multiplies 0%nat 0%nat (0, 0, -3)
           identity_matrix identity_matrix {[ 0%nat := identity_matrix ]});
    reflexivity.
Defined.

(** ** The last row *)

Lemma last_row_translate A v :
  length A = 16%nat -> last_row A = [0; 0; 0; 1] ->
  last_row (translate_matrix A v) = [0; 0; 0; 1].
Proof.
  intros HA. destruct v as [[x y] z]. explode A HA.
  unfold last_row, translate_matrix.
  cbn [lookup_total list_lookup_total].
  intros [= -> -> -> ->]. repeat (f_equal; try ring).
Qed.

Lemma last_row_rotate A rad axis :
  length A = 16%nat -> last_row A = [0; 0; 0; 1] ->
  last_row (rotate_matrix A rad axis) = [0; 0; 0; 1].
Proof.
  intros HA. destruct axis as [[x y] z]. explode A HA.
  unfold last_row, rotate_matrix.
  cbn [lookup_total list_lookup_total].
  intros [= -> -> -> ->]. repeat (f_equal; try ring).
Qed.

(** C9: the last row (elements 3, 7, 11, 15) of a fresh matrix is
    [0, 0, 0, 1]; [translate] and [rotate] with a non-degenerate axis hand
    a last row [0, 0, 0, 1] on from [a] to [out]; the matrix written by
    [perspective] has last row [0, 0, -1, 0]. *)
Theorem last_row_invariant :
  (forall h,
     last_row (deref (mat4.create h).2 (mat4.create h).1) = [0; 0; 0; 1]) /\
  (forall out a v A O h,
     h !! a = Some A -> h !! out = Some O ->
     length A = 16%nat -> length O = 16%nat ->
     last_row A = [0; 0; 0; 1] ->
     last_row (deref (mat4.translate out a v h).2 out) = [0; 0; 0; 1]) /\
  (forall out a rad axis A O h,
     h !! a = Some A -> h !! out = Some O ->
     length A = 16%nat -> length O = 16%nat ->
     ~ norm axis < mat4.EPSILON ->
     last_row A = [0; 0; 0; 1] ->
     (mat4.rotate out a rad axis h).1 = Some out /\
     last_row (deref (mat4.rotate out a rad axis h).2 out) = [0; 0; 0; 1]) /\
  (forall out fovy aspect near far O h,
     h !! out = Some O -> length O = 16%nat ->
     last_row (deref (mat4.perspective out fovy aspect near far h).2 out)
       = [0; 0; -1; 0]).
Proof.
  split; [|split; [|split]].
  - intros h. rewrite create_run. cbn [fst snd]. rewrite deref_insert. reflexivity.
  - intros out a v A O h Ha Ho HA HO Hrow.
    rewrite (translate_run out a v A O h) by assumption.
    cbn [snd]. rewrite deref_insert. apply last_row_translate; assumption.
  - intros out a rad axis A O h Ha Ho HA HO Hlen Hrow.
    rewrite (rotate_run out a rad axis A O h) by assumption.
    cbn [fst snd]. rewrite deref_insert.
    split; [reflexivity | apply last_row_rotate; assumption].
  - intros out fovy aspect near far O h Ho HO.
    rewrite (perspective_run out fovy aspect near far O h) by assumption.
    cbn [snd]. rewrite deref_insert. reflexivity.
Qed.

Lemma norm_X_AXIS : norm X_AXIS = 1.
Proof.
  unfold norm, X_AXIS. replace (1 * 1 + 0 * 0 + 0 * 0) with 1 by lra.
  apply sqrt_1.
Qed.

Lemma norm_Y_AXIS : norm Y_AXIS = 1.
Proof.
  unfold norm, Y_AXIS. replace (0 * 0 + 1 * 1 + 0 * 0) with 1 by lra.
  apply sqrt_1.
Qed.

Lemma unit_not_degenerate axis : norm axis = 1 -> ~ norm axis < mat4.EPSILON.
Proof. intros ->. unfold mat4.EPSILON. lra. Qed.

Lemma last_row_invariant_witness :
  last_row (deref (mat4.translate 0%nat 0%nat (0, 0, -3)
                     {[ 0%nat := identity_matrix ]}).2 0%nat) = [0; 0; 0; 1] /\
  last_row (deref (mat4.rotate 0%nat 0%nat 1 X_AXIS
                     {[ 0%nat := identity_matrix ]}).2 0%nat) = [0; 0; 0; 1].
Proof.
  destruct last_row_invariant as (_ & Htranslate & Hrotate & _).
  split.
  - apply (Htranslate 0%nat 0%nat (0, 0, -3) identity_matrix identity_matrix);
      reflexivity.
  - apply (Hrotate 0%nat 0%nat 1 X_AXIS identity_matrix identity_matrix);
      try reflexivity.
    apply unit_not_degenerate, norm_X_AXIS.
Defined.

(** ** Perspective *)




(** ** The pentagon *)

Lemma pentagon_pushes radius centerX centerY :
  pentagon radius centerX centerY =
    pushed radius centerX centerY 0 ++ pushed radius centerX centerY 1 ++
    pushed radius centerX centerY 2 ++ pushed radius centerX centerY 3 ++
    pushed radius centerX centerY 4.
Proof. reflexivity. Qed.

Lemma vertexAt_pentagon radius centerX centerY k :
  (k < 5)%nat ->
  vertexAt (pentagon radius centerX centerY) k =
    let angle := (INR k * 2 * PI / 5) - (PI / 2) in
    (centerX + radius * cos angle, centerY + radius * sin angle, 0).
Proof.
  intros Hk. rewrite pentagon_pushes.
  do 5 (destruct k as [|k]; [reflexivity|]). lia.
Qed.

Lemma on_circle radius angle :
  0 <= radius ->
  norm (0 + radius * cos angle, 0 + radius * sin angle, 0) = radius.
Proof.
  intros Hr. unfold norm.
  replace (_ + _ + _)
    with ((radius * radius) * (Rsqr (sin angle) + Rsqr (cos angle)))
    by (unfold Rsqr; ring).
  rewrite sin2_cos2, Rmult_1_r. apply sqrt_square, Hr.
Qed.

(** What does hold of the geometry: fifteen numbers, that is five
    vertices, all in the plane [z = 0] and on the circle of the radius. *)
Lemma pentagon_on_circle radius :
  0 <= radius ->
  length (pentagon radius 0 0) = 15%nat /\
  forall k, (k < 5)%nat ->
    norm (vertexAt (pentagon radius 0 0) k) = radius /\
    (vertexAt (pentagon radius 0 0) k).2 = 0.
Proof.
  intros Hr. split; [reflexivity|].
  intros k Hk. rewrite vertexAt_pentagon by assumption. cbv zeta.
  split; [apply on_circle, Hr | reflexivity].
Qed.

Lemma pentagon_first_vertex radius :
  vertexAt (pentagon radius 0 0) 0 = (0, - radius, 0).
Proof.
  rewrite vertexAt_pentagon by lia. cbv zeta.
  replace (INR 0 * 2 * PI / 5 - PI / 2) with (- (PI / 2)) by (simpl; lra).
  rewrite cos_neg, sin_neg, cos_PI2, sin_PI2.
  repeat f_equal; ring.
Qed.

(** C1 (at the input where the code departs from it): [initBuffers]
    announces five vertices, and its first vertex is [(0, -0.8, 0)], the
    lowest point of the circle of radius 0.8, not [(0, 0.8, 0)]. *)
Theorem initBuffers_first_vertex :
  vertexCount initBuffers = 5%nat /\
  vertexAt (position initBuffers) 0 = (0, - 0.8, 0) /\
  vertexAt (position initBuffers) 0 <> (0, 0.8, 0).
Proof.
  unfold initBuffers. cbn [vertexCount position].
  rewrite pentagon_first_vertex.
  split; [reflexivity | split].
  - do 2 f_equal. lra.
  - intros [= H]. lra.
Qed.

(** ** The render loop *)

Lemma render_vars w ht buffers s h :
  (render w ht buffers s h).1.2 = if isRotating s then advance s else s.
Proof.
  unfold render, bind. destruct (drawScene _ _ _ _ _ _ h). reflexivity.
Qed.

Lemma ticks_cons w ht rest buffers s h :
  (ticks ((w, ht) :: rest) buffers s h).1.2 =
  (ticks rest buffers (render w ht buffers s h).1.2 (render w ht buffers s h).2).1.2.
Proof.
  cbn [ticks]. unfold bind at 1.
  destruct (render w ht buffers s h) as [[frame s1] h1]. cbn [fst snd].
  unfold bind. destruct (ticks rest buffers s1 h1) as [[frames s2] h2].
  reflexivity.
Qed.

Lemma ticks_rotating canvas buffers : forall s h,
  isRotating s = true ->
  let s' := (ticks canvas buffers s h).1.2 in
  rotationX s' = rotationX s + INR (length canvas) * rotationSpeedX s /\
  rotationY s' = rotationY s + INR (length canvas) * rotationSpeedY s /\
  rotationSpeedX s' = rotationSpeedX s /\
  rotationSpeedY s' = rotationSpeedY s /\
  isRotating s' = true.
Proof.
  induction canvas as [|[w ht] rest IH]; intros s h Hrot.
  - cbn. repeat split; try lra. assumption.
  - cbv zeta. rewrite ticks_cons.
    pose proof (render_vars w ht buffers s h) as Hs1. rewrite Hrot in Hs1.
    destruct (IH (render w ht buffers s h).1.2 (render w ht buffers s h).2)
      as (HX & HY & HSX & HSY & HR).
    { rewrite Hs1. exact Hrot. }
    rewrite HX, HY, HSX, HSY, HR, Hs1.
    change (length ((w, ht) :: rest)) with (S (length rest)).
    rewrite S_INR. cbn [advance rotationX rotationY rotationSpeedX rotationSpeedY].
    repeat split; lra.
Qed.

(** C4: from [rotationX = rotationY = 0] with [isRotating] set, after N
    calls of [render] the angles are [N * rotationSpeedX] and
    [N * rotationSpeedY]; a click on reset after them, whatever N was,
    leaves both angles at [0]. *)
Theorem ticks_then_reset canvas buffers s h d :
  rotationX s = 0 -> rotationY s = 0 -> isRotating s = true ->
  let s' := (ticks canvas buffers s h).1.2 in
  (rotationX s' = INR (length canvas) * rotationSpeedX s /\
   rotationY s' = INR (length canvas) * rotationSpeedY s) /\
  (rotationX (resetView_click (s', d)).1 = 0 /\
   rotationY (resetView_click (s', d)).1 = 0).
Proof.
  intros HX HY Hrot s'.
  destruct (ticks_rotating canvas buffers s h Hrot) as (HX' & HY' & _).
  fold s' in HX', HY'. rewrite HX', HY', HX, HY.
  repeat split; try lra; reflexivity.
Qed.

Lemma ticks_then_reset_witness :
  let s' := (ticks [(640, 480); (640, 480); (800, 600)] initBuffers main_vars ∅).1.2 in
  (rotationX s' = INR 3 * 0.01 /\ rotationY s' = INR 3 * 0.005) /\
  (rotationX (resetView_click (s', sample_page)).1 = 0 /\
   rotationY (resetView_click (s', sample_page)).1 = 0).
Proof.
  apply (ticks_then_reset [(640, 480); (640, 480); (800, 600)]
           initBuffers main_vars ∅ sample_page); reflexivity.
Defined.

(** ** The click handlers *)

Lemma is_blue_BLUE : is_blue BLUE = true.
Proof.
  unfold is_blue, BLUE. cbn [lookup list_lookup].
  rewrite !bool_decide_eq_true_2 by reflexivity. reflexivity.
Qed.

Lemma is_blue_RED : is_blue RED = false.
Proof.
  unfold is_blue, RED. cbn [lookup list_lookup].
  rewrite (bool_decide_eq_false_2 (Some 0.8 = Some 0.2)); [reflexivity|].
  intros [= H]. lra.
Qed.

Lemma RED_not_BLUE : RED <> BLUE.
Proof. unfold RED, BLUE. intros [= H _ _]. lra. Qed.

Lemma changeColor_color s d :
  color (changeColor_click (s, d)).1 = if is_blue (color s) then RED else BLUE.
Proof. reflexivity. Qed.

(** After a click the colour is one of the two presets, and the next click
    gives the other one. *)
Lemma changeColor_flips s d :
  let c1 := color (changeColor_click (s, d)).1 in
  let c2 := color (changeColor_click (changeColor_click (s, d))).1 in
  (c1 = RED /\ c2 = BLUE) \/ (c1 = BLUE /\ c2 = RED).
Proof.
  cbn [changeColor_click fst color].
  destruct (is_blue (color s)).
  - left. rewrite is_blue_RED. split; reflexivity.
  - right. rewrite is_blue_BLUE. split; reflexivity.
Qed.

(** C6: from the blue preset [0.2, 0.4, 0.8, 1.0] one click on change
    colour gives the red preset [0.8, 0.2, 0.2, 1.0] and a second click
    gives the blue preset again, number for number; the clicks change
    nothing but the colour. *)
Theorem changeColor_two_cycle s d :
  color s = BLUE ->
  BLUE = [0.2; 0.4; 0.8; 1.0] /\ RED = [0.8; 0.2; 0.2; 1.0] /\
  color (changeColor_click (s, d)).1 = RED /\
  color (changeColor_click (changeColor_click (s, d))).1 = BLUE /\
  changeColor_click (changeColor_click (s, d)) = (s, d).
Proof.
  intros Hc. destruct s as [c rx ry sx sy rot]. cbn [color] in Hc. subst c.
  cbn [changeColor_click fst color rotationX rotationY rotationSpeedX
       rotationSpeedY isRotating].
  rewrite is_blue_BLUE, is_blue_RED. repeat split.
Qed.

Lemma changeColor_two_cycle_witness :
  color (changeColor_click (main_vars, sample_page)).1 = RED /\
  color (changeColor_click (changeColor_click (main_vars, sample_page))).1 = BLUE.
Proof.
  destruct (changeColor_two_cycle main_vars sample_page) as (_ & _ & H1 & H2 & _).
  - reflexivity.
  - split; assumption.
Defined.

Lemma negb_flip b : negb b <> b.
Proof. destruct b; discriminate. Qed.

(** C5, as the claim has it, fails at the first click from the initial
    variables: pausing twice gives other variables than pausing once. *)
Lemma toggleRotation_not_idempotent :
  (toggleRotation_click (toggleRotation_click (main_vars, sample_page))).1
    <> (toggleRotation_click (main_vars, sample_page)).1.
Proof. intros H. apply (f_equal isRotating) in H. discriminate H. Qed.

(** C5, amended: on the variables of [main], reset view is idempotent and
    the share handler changes nothing (so it is idempotent on them too),
    while on the page it flips the display of the share section;
    pause and change colour are toggles, not idempotent: two clicks on
    pause give back the variables, two clicks on change colour never give
    the colour one click gives, and three clicks on change colour are one
    click. *)
Theorem handlers_idempotent_or_toggle href st :
  resetView_click (resetView_click st) = resetView_click st /\
  (shareButton_click href st).1 = st.1 /\
  (shareButton_click href (shareButton_click href st)).1
    = (shareButton_click href st).1 /\
  shareSection_display (shareButton_click href (shareButton_click href st)).2
    <> shareSection_display (shareButton_click href st).2 /\
  (toggleRotation_click (toggleRotation_click st)).1 = st.1 /\
  (toggleRotation_click (toggleRotation_click st)).1
    <> (toggleRotation_click st).1 /\
  (changeColor_click (changeColor_click st)).1 <> (changeColor_click st).1 /\
  changeColor_click (changeColor_click (changeColor_click st))
    = changeColor_click st.
Proof.
  destruct st as [s d].
  split; [reflexivity|]. split; [reflexivity|]. split; [reflexivity|].
  split; [|split; [|split; [|split]]].
  - cbn [shareButton_click snd shareSection_display].
    destruct (bool_decide (shareSection_display d = "none")).
    + rewrite bool_decide_eq_false_2 by discriminate. discriminate.
    + rewrite bool_decide_eq_true_2 by reflexivity. discriminate.
  - destruct s as [c rx ry sx sy rot]. cbn. rewrite negb_involutive. reflexivity.
  - intros H. apply (f_equal isRotating) in H. cbn in H.
    rewrite negb_involutive in H. symmetry in H. exact (negb_flip _ H).
  - intros H. apply (f_equal color) in H.
    destruct (changeColor_flips s d) as [[H1 H2]|[H1 H2]];
      cbv zeta in H1, H2; rewrite H1, H2 in H.
    + symmetry in H. exact (RED_not_BLUE H).
    + exact (RED_not_BLUE H).
  - cbn [changeColor_click fst color rotationX rotationY rotationSpeedX
         rotationSpeedY isRotating].
    destruct (is_blue (color s));
      rewrite ?is_blue_RED, ?is_blue_BLUE, ?is_blue_RED; reflexivity.
Qed.

(** ** Composition of rotations *)

Lemma rotate_in_place m rad axis A h :
  h !! m = Some A -> length A = 16%nat -> norm axis = 1 ->
  mat4.rotate m m rad axis h = (Some m, <[m := rotate_matrix A rad axis]> h).
Proof.
  intros Hm HA Hn.
  apply (rotate_run m m rad axis A A h); auto using unit_not_degenerate.
Qed.

Lemma length_rotate_matrix A rad axis : length (rotate_matrix A rad axis) = 16%nat.
Proof. destruct axis as [[x y] z]. reflexivity. Qed.








(** ** A frame

    What [drawScene] hands to the shaders, whatever the heap it starts
    from: the two matrices are fresh arrays, and every [mat4] call on the
    model-view matrix is made with [out] and [a] the same array. *)

Lemma length_translate_matrix A v : length (translate_matrix A v) = 16%nat.
Proof. destruct v as [[x y] z]. reflexivity. Qed.

Lemma drawScene_frame w ht buffers col rx ry h :
  (drawScene w ht buffers col rx ry h).1 =
    {| uProjectionMatrix := perspective_matrix (45 * PI / 180) (w / ht) 0.1 100.0;
       uModelViewMatrix :=
         rotate_matrix
           (rotate_matrix (translate_matrix identity_matrix (0.0, 0.0, -3.0))
              rx X_AXIS)
           ry Y_AXIS;
       uColor := col;
       drawn := vertexCount buffers |}.
Proof.
  unfold drawScene.
  eapply (f_equal fst (y := (_, _))).
  eapply bind_run; [apply create_run|].
  set (p := fresh (dom h)).
  eapply bind_run;
    [apply (perspective_run p _ _ _ _ identity_matrix);
       [apply lookup_insert_eq | reflexivity]|].
  rewrite insert_insert_eq.
  set (h1 := <[p := _]> h).
  eapply bind_run; [apply create_run|].
  set (q := fresh (dom h1)).
  assert (Hpq : q <> p).
  { intros E. pose proof (fresh_free h1) as Hq. fold q in Hq.
    rewrite E in Hq. unfold h1 in Hq. rewrite lookup_insert_eq in Hq.
    discriminate Hq. }
  eapply bind_run;
    [apply (translate_run q q _ identity_matrix identity_matrix);
       solve [apply lookup_insert_eq | reflexivity]|].
  rewrite insert_insert_eq.
  eapply bind_run;
    [apply rotate_in_place;
       [apply lookup_insert_eq | apply length_translate_matrix | exact norm_X_AXIS]|].
  rewrite insert_insert_eq.
  eapply bind_run;
    [apply rotate_in_place;
       [apply lookup_insert_eq | apply length_rotate_matrix | exact norm_Y_AXIS]|].
  rewrite insert_insert_eq.
  unfold bind, uniformMatrix4fv, ret, deref.
  rewrite lookup_insert_ne by exact Hpq.
  unfold h1. rewrite !lookup_insert_eq. reflexivity.
Qed.

(** * Further properties of the code *)

(** ** What the matrix functions write *)

Lemma writes_only_ret {A : Type} out (x : A) : writes_only out (ret x).
Proof. intros h q _. reflexivity. Qed.

Lemma writes_only_bind {A B : Type} out (m : M A) (k : A -> M B) :
  writes_only out m -> (forall x, writes_only out (k x)) ->
  writes_only out (bind m k).
Proof.
  intros Hm Hk h q Hq. unfold bind.
  specialize (Hm h q Hq). destruct (m h) as [x h1]. cbn [snd] in Hm.
  rewrite (Hk x h1 q Hq). exact Hm.
Qed.

Lemma writes_only_load out p i : writes_only out (load p i).
Proof. intros h q _. reflexivity. Qed.

Lemma writes_only_store out i v : writes_only out (store out i v).
Proof.
  intros h q Hq. unfold store. cbn [snd].
  destruct (h !! out); [|reflexivity].
  apply lookup_insert_ne. congruence.
Qed.

Ltac writes_only :=
  repeat lazymatch goal with
    | |- writes_only _ (ret _) => apply writes_only_ret
    | |- writes_only _ (load _ _) => apply writes_only_load
    | |- writes_only _ (store _ _ _) => apply writes_only_store
    | |- writes_only _ (bind _ _) => apply writes_only_bind; [|intros ?]
    end.

Lemma writes_only_perspective out fovy aspect near far :
  writes_only out (mat4.perspective out fovy aspect near far).
Proof. unfold mat4.perspective. writes_only. Qed.

Lemma writes_only_translate out a v :
  writes_only out (mat4.translate out a v).
Proof.
  destruct v as [[x y] z].
  unfold mat4.translate, mat4.copy, mat4.translate_row. writes_only.
Qed.

Lemma writes_only_rotate out a rad axis :
  writes_only out (mat4.rotate out a rad axis).
Proof.
  destruct axis as [[x y] z]. unfold mat4.rotate, mat4.copy.
  destruct (Rlt_dec _ _); [apply writes_only_ret|].
  cbv zeta. writes_only.
  destruct (decide (a <> out)); writes_only.
Qed.

(** X1: [perspective], [translate] and [rotate] write to the array behind
    [out] and to no other: every other array of the heap, the input [a]
    included when it is not [out], holds the same numbers after the call,
    whatever the arrays' lengths and whether or not [rotate] fails. *)
Theorem mat4_writes_only_out out a q h fovy aspect near far v rad axis :
  q <> out ->
  (mat4.perspective out fovy aspect near far h).2 !! q = h !! q /\
  (mat4.translate out a v h).2 !! q = h !! q /\
  (mat4.rotate out a rad axis h).2 !! q = h !! q.
Proof.
  intros Hq. split; [|split].
  - apply writes_only_perspective, Hq.
  - apply writes_only_translate, Hq.
  - apply writes_only_rotate, Hq.
Qed.

Lemma mat4_writes_only_out_witness :
  (mat4.translate 1%nat 0%nat (1, 2, 3)
     {[ 0%nat := identity_matrix; 1%nat := identity_matrix ]}).2 !! 0%nat
    = Some identity_matrix.
Proof.
  refine (proj1 (proj2 (mat4_writes_only_out 1%nat 0%nat 0%nat
            {[ 0%nat := identity_matrix; 1%nat := identity_matrix ]}
            0 0 0 0 (1, 2, 3) 0 (0, 0, 0) _))).
  discriminate.
Defined.
(** ** Rotations and translations as products *)

Lemma rotate_matrix_is_product A rad axis :
  length A = 16%nat ->
  rotate_matrix A rad axis = spec_mul A (rotation_matrix rad axis).
Proof.
  intros HA. destruct axis as [[x y] z]. explode A HA.
  unfold rotate_matrix, spec_mul, spec_mul_entry, rotation_matrix.
  cbn [flat_map map seq app Nat.add Nat.mul lookup_total list_lookup_total].
  cbv zeta.
  repeat (f_equal; try ring).
Qed.




(** The axis divided by its length is a unit vector. *)
Lemma normalised_unit x y z :
  0 < sqrt (x * x + y * y + z * z) ->
  let len := 1 / sqrt (x * x + y * y + z * z) in
  (x * len) * (x * len) + (y * len) * (y * len) + (z * len) * (z * len) = 1.
Proof.
  intros Hpos len. subst len.
  assert (Hn : 0 <= x * x + y * y + z * z) by nra.
  pose proof (sqrt_sqrt _ Hn) as Hs.
  remember (sqrt (x * x + y * y + z * z)) as r eqn:Er.
  transitivity ((x * x + y * y + z * z) * (/ r * / r)).
  - unfold Rdiv. ring.
  - rewrite <- Hs. field. lra.
Qed.
Lemma mulMV_spec_mul A B v :
  length A = 16%nat -> length B = 16%nat ->
  mulMV (spec_mul A B) v = mulMV A (mulMV B v).
Proof.
  intros HA HB. destruct v as [[[x y] z] w]. explode A HA. explode B HB.
  unfold mulMV, spec_mul, spec_mul_entry.
  cbn [flat_map map seq app Nat.add Nat.mul lookup_total list_lookup_total].
  repeat (f_equal; try ring).
Qed.

Lemma length_rotation_matrix rad axis : length (rotation_matrix rad axis) = 16%nat.
Proof. destruct axis as [[x y] z]. reflexivity. Qed.

Lemma rotation_matrix_affine rad axis p :
  mulMV (rotation_matrix rad axis) (point p)
    = point (xyz (mulMV (rotation_matrix rad axis) (point p))).
Proof.
  destruct axis as [[x y] z], p as [[p1 p2] p3].
  unfold mulMV, rotation_matrix, point, xyz.
  cbn [lookup_total list_lookup_total]. cbv zeta.
  repeat (f_equal; try ring).
Qed.

Lemma rotation_keeps_dist rad axis p q :
  0 < norm axis ->
  dist (xyz (mulMV (rotation_matrix rad axis) (point p)))
       (xyz (mulMV (rotation_matrix rad axis) (point q))) = dist p q.
Proof.
  intros Hpos. destruct axis as [[x y] z], p as [[p1 p2] p3], q as [[q1 q2] q3].
  unfold norm in Hpos.
  pose proof (normalised_unit x y z Hpos) as Hu. cbv zeta in Hu.
  unfold mulMV, rotation_matrix, point, xyz, dist, norm.
  cbn [lookup_total list_lookup_total]. cbv zeta.
  pose proof (sin2_cos2 rad) as H1. unfold Rsqr in H1.
  generalize dependent (sin rad). generalize dependent (cos rad).
  generalize dependent (x * (1 / sqrt (x * x + y * y + z * z))).
  generalize dependent (y * (1 / sqrt (x * x + y * y + z * z))).
  generalize dependent (z * (1 / sqrt (x * x + y * y + z * z))).
  intros w v u Hu c s H1.
  f_equal. nsatz.
Qed.

Lemma isometry_identity : isometry identity_matrix.
Proof.
  intros [[p1 p2] p3] [[q1 q2] q3].
  unfold mulMV, identity_matrix, point, xyz, dist, norm.
  cbn [lookup_total list_lookup_total]. f_equal. ring.
Qed.

Lemma isometry_rotate A rad axis :
  length A = 16%nat -> 0 < norm axis ->
  isometry A -> isometry (rotate_matrix A rad axis).
Proof.
  intros HA Hpos HisoA p q.
  rewrite rotate_matrix_is_product by assumption.
  rewrite !mulMV_spec_mul by auto using length_rotation_matrix.
  rewrite (rotation_matrix_affine rad axis p), (rotation_matrix_affine rad axis q).
  rewrite HisoA. apply rotation_keeps_dist, Hpos.
Qed.

Lemma translate_matrix_point A v p :
  length A = 16%nat ->
  mulMV (translate_matrix A v) (point p) = mulMV A (point (vadd p v)).
Proof.
  intros HA. destruct v as [[x y] z], p as [[p1 p2] p3]. explode A HA.
  unfold mulMV, translate_matrix, point, vadd.
  cbn [lookup_total list_lookup_total].
  repeat (f_equal; try ring).
Qed.

Lemma isometry_translate A v :
  length A = 16%nat -> isometry A -> isometry (translate_matrix A v).
Proof.
  intros HA HisoA p q.
  rewrite !translate_matrix_point by assumption. rewrite HisoA.
  destruct v as [[x y] z], p as [[p1 p2] p3], q as [[q1 q2] q3].
  unfold vadd, dist, norm. f_equal. ring.
Qed.

Lemma perspective_depth_between fovy aspect near far x y d :
  0 < near < far -> near <= d <= far ->
  -1 <= ndc_z (mulMV (perspective_matrix fovy aspect near far) (point (x, y, - d))) <= 1.
Proof.
  intros [Hn Hf] [Hd1 Hd2].
  unfold ndc_z, mulMV, point, perspective_matrix.
  cbn [lookup_total list_lookup_total].
  replace (_ / _) with (((far + near) * d - 2 * far * near) / ((far - near) * d))
    by (field; lra).
  assert (Hden : 0 < (far - near) * d) by nra.
  split.
  - apply Rmult_le_reg_r with ((far - near) * d); [exact Hden|].
    unfold Rdiv. rewrite Rmult_assoc, Rinv_l by lra. nra.
  - apply Rmult_le_reg_r with ((far - near) * d); [exact Hden|].
    unfold Rdiv. rewrite Rmult_assoc, Rinv_l by lra. nra.
Qed.

















(** ** Frames, again *)

Lemma spec_mul_identity_l B :
  length B = 16%nat -> spec_mul identity_matrix B = B.
Proof.
  intros HB. explode B HB.
  unfold spec_mul, spec_mul_entry, identity_matrix.
  cbn [flat_map map seq app Nat.add Nat.mul lookup_total list_lookup_total].
  repeat (f_equal; try ring).
Qed.

Lemma length_spec_translation v : length (spec_translation v) = 16%nat.
Proof. destruct v as [[x y] z]. reflexivity. Qed.

(** The model-view matrix of a frame, as a value. *)
Lemma modelView_product rx ry :
  rotate_matrix
    (rotate_matrix (translate_matrix identity_matrix (0.0, 0.0, -3.0)) rx X_AXIS)
    ry Y_AXIS
  = spec_mul (spec_mul (spec_translation (0, 0, -3)) (rotation_matrix rx X_AXIS))
      (rotation_matrix ry Y_AXIS).
Proof.
  rewrite rotate_matrix_is_product by apply length_rotate_matrix.
  rewrite rotate_matrix_is_product by apply length_translate_matrix.
  rewrite translate_matrix_is_product by reflexivity.
  rewrite spec_mul_identity_l by apply length_spec_translation.
  replace (0.0, 0.0, -3.0) with (0, 0, -3) by (repeat f_equal; lra).
  reflexivity.
Qed.

Lemma drawScene_run w ht buffers col rx ry h :
  let p := fresh (dom h) in
  let P := perspective_matrix (45 * PI / 180) (w / ht) 0.1 100.0 in
  let q := fresh (dom (<[p := P]> h)) in
  let MV := rotate_matrix
              (rotate_matrix (translate_matrix identity_matrix (0.0, 0.0, -3.0))
                 rx X_AXIS) ry Y_AXIS in
  q <> p /\
  drawScene w ht buffers col rx ry h =
    ({| uProjectionMatrix := P; uModelViewMatrix := MV;
        uColor := col; drawn := vertexCount buffers |},
     <[q := MV]> (<[p := P]> h)).
Proof.
  intros p P q MV.
  assert (Hpq : q <> p).
  { intros E. pose proof (fresh_free (<[p := P]> h)) as Hq. fold q in Hq.
    rewrite E, lookup_insert_eq in Hq. discriminate Hq. }
  split; [exact Hpq|].
  unfold drawScene.
  eapply bind_run; [apply create_run|]. fold p.
  eapply bind_run;
    [apply (perspective_run p _ _ _ _ identity_matrix);
       [apply lookup_insert_eq | reflexivity]|].
  rewrite insert_insert_eq. fold P.
  eapply bind_run; [apply create_run|]. fold q.
  eapply bind_run;
    [apply (translate_run q q _ identity_matrix identity_matrix);
       solve [apply lookup_insert_eq | reflexivity]|].
  rewrite insert_insert_eq.
  eapply bind_run;
    [apply rotate_in_place;
       [apply lookup_insert_eq | apply length_translate_matrix | exact norm_X_AXIS]|].
  rewrite insert_insert_eq.
  eapply bind_run;
    [apply rotate_in_place;
       [apply lookup_insert_eq | apply length_rotate_matrix | exact norm_Y_AXIS]|].
  rewrite insert_insert_eq. fold MV.
  unfold bind, uniformMatrix4fv, ret, deref.
  rewrite lookup_insert_ne by exact Hpq.
  rewrite !lookup_insert_eq. reflexivity.
Qed.

(** X8: whatever the heap it starts from, [drawScene] hands the shaders
    the projection for a 45 degree field of view, the aspect of the
    canvas, near 0.1 and far 100, and the model-view matrix
    T(0,0,-3) * Rx(rotationX) * Ry(rotationY) (neither rotation fails);
    it passes the colour and the vertex count on unchanged, and it changes
    no array that existed before the call. *)
Theorem drawScene_uniforms w ht buffers col rx ry h :
  (drawScene w ht buffers col rx ry h).1 =
    {| uProjectionMatrix := perspective_matrix (45 * PI / 180) (w / ht) 0.1 100;
       uModelViewMatrix :=
         spec_mul (spec_mul (spec_translation (0, 0, -3))
                            (rotation_matrix rx X_AXIS))
                  (rotation_matrix ry Y_AXIS);
       uColor := col;
       drawn := vertexCount buffers |} /\
  forall r l, h !! r = Some l ->
    (drawScene w ht buffers col rx ry h).2 !! r = Some l.
Proof.
  destruct (drawScene_run w ht buffers col rx ry h) as [Hpq ->].
  cbn [fst snd]. split.
  - rewrite modelView_product.
    replace 100.0 with 100 by lra. reflexivity.
  - intros r l Hr.
    assert (Hp : r <> fresh (dom h)).
    { intros ->. rewrite fresh_free in Hr. discriminate Hr. }
    set (h1 := <[fresh (dom h) := _]> h) in *.
    assert (Hr1 : h1 !! r = Some l).
    { unfold h1. rewrite lookup_insert_ne by congruence. exact Hr. }
    assert (Hq : r <> fresh (dom h1)).
    { intros ->. rewrite fresh_free in Hr1. discriminate Hr1. }
    rewrite lookup_insert_ne by congruence. exact Hr1.
Qed.

Lemma affine_point m p :
  last_row m = [0; 0; 0; 1] ->
  mulMV m (point p) = point (xyz (mulMV m (point p))).
Proof.
  destruct p as [[p1 p2] p3]. unfold last_row, mulMV, point, xyz.
  intros [= -> -> -> ->]. repeat (f_equal; try ring).
Qed.

Lemma mulMV_origin m :
  xyz (mulMV m (point (0, 0, 0))) = (m.[12], m.[13], m.[14]).
Proof. unfold mulMV, point, xyz. repeat f_equal; ring. Qed.

Lemma rotate_matrix_last_column A rad axis :
  (rotate_matrix A rad axis).[12] = A.[12] /\
  (rotate_matrix A rad axis).[13] = A.[13] /\
  (rotate_matrix A rad axis).[14] = A.[14].
Proof. destruct axis as [[x y] z]. repeat split. Qed.

Lemma modelView_facts rx ry :
  let MV := rotate_matrix
              (rotate_matrix (translate_matrix identity_matrix (0.0, 0.0, -3.0))
                 rx X_AXIS) ry Y_AXIS in
  isometry MV /\ last_row MV = [0; 0; 0; 1] /\
  xyz (mulMV MV (point (0, 0, 0))) = (0, 0, -3).
Proof.
  intros MV. subst MV. split; [|split].
  - apply isometry_rotate;
      [apply length_rotate_matrix | rewrite norm_Y_AXIS; lra|].
    apply isometry_rotate;
      [apply length_translate_matrix | rewrite norm_X_AXIS; lra|].
    apply isometry_translate; [reflexivity | apply isometry_identity].
  - apply last_row_rotate; [apply length_rotate_matrix|].
    apply last_row_rotate; [apply length_translate_matrix|].
    apply last_row_translate; reflexivity.
  - rewrite mulMV_origin.
    destruct (rotate_matrix_last_column
                (rotate_matrix (translate_matrix identity_matrix (0.0, 0.0, -3.0))
                   rx X_AXIS) ry Y_AXIS) as (-> & -> & ->).
    destruct (rotate_matrix_last_column
                (translate_matrix identity_matrix (0.0, 0.0, -3.0)) rx X_AXIS)
      as (-> & -> & ->).
    unfold translate_matrix, identity_matrix.
    cbn [lookup_total list_lookup_total].
    repeat f_equal; lra.
Qed.

(** A point at distance [r] from [(0, 0, -3)] has depth within [r] of 3. *)
Lemma depth_near_centre (x y z r : R) :
  dist (x, y, z) (0, 0, -3) = r -> 3 - r <= - z <= 3 + r.
Proof.
  unfold dist, norm. intros Hd.
  pose proof (Rle_0_sqr (x - 0)) as Hx. pose proof (Rle_0_sqr (y - 0)) as Hy.
  pose proof (Rle_0_sqr (z - -3)) as Hz. unfold Rsqr in Hx, Hy, Hz.
  assert (Hn : 0 <= (x - 0) * (x - 0) + (y - 0) * (y - 0) + (z - -3) * (z - -3))
    by lra.
  pose proof (sqrt_sqrt _ Hn) as Hs. rewrite Hd in Hs.
  pose proof (sqrt_pos ((x - 0) * (x - 0) + (y - 0) * (y - 0) + (z - -3) * (z - -3)))
    as Hr. rewrite Hd in Hr.
  assert (Hsq : (z + 3) * (z + 3) <= r * r).
  { replace ((z + 3) * (z + 3)) with ((z - -3) * (z - -3)) by ring. lra. }
  split.
  - destruct (Rle_lt_dec (z + 3) r) as [Hle|Hlt]; [lra|]. exfalso.
    assert (r * r < (z + 3) * (z + 3))
      by (apply Rmult_le_0_lt_compat; lra).
    lra.
  - destruct (Rle_lt_dec (- (z + 3)) r) as [Hle|Hlt]; [lra|]. exfalso.
    assert (r * r < (- (z + 3)) * (- (z + 3)))
      by (apply Rmult_le_0_lt_compat; lra).
    lra.
Qed.

Lemma dist_origin p : dist p (0, 0, 0) = norm p.
Proof.
  destruct p as [[x y] z]. unfold dist, norm. f_equal. ring.
Qed.

(** X9: in every frame, whatever the two angles and the size of the
    canvas, each of the five vertices of the pentagon is carried by the
    model-view matrix to a point at distance 0.8 from [(0, 0, -3)], and the
    depth the projection then gives it lies between -1 and +1: the pentagon
    turns about its centre and never crosses the near or the far plane. *)
Theorem drawScene_pentagon_in_view w ht col rx ry h k :
  (k < 5)%nat ->
  let frame := (drawScene w ht initBuffers col rx ry h).1 in
  let v := point (vertexAt (position initBuffers) k) in
  dist (xyz (mulMV (uModelViewMatrix frame) v)) (0, 0, -3) = 0.8 /\
  -1 <= ndc_z (mulMV (uProjectionMatrix frame)
                 (mulMV (uModelViewMatrix frame) v)) <= 1.
Proof.
  intros Hk frame v. subst frame v.
  destruct (drawScene_run w ht initBuffers col rx ry h) as [_ ->].
  cbn [fst uModelViewMatrix uProjectionMatrix].
  destruct (modelView_facts rx ry) as (Hiso & Hrow & Hcentre).
  cbv zeta in Hiso, Hrow, Hcentre.
  set (MV := rotate_matrix _ ry Y_AXIS) in *.
  set (p := vertexAt (position initBuffers) k).
  assert (Hnorm : norm p = 0.8).
  { apply (pentagon_on_circle 0.8); [lra | exact Hk]. }
  assert (Hdist : dist (xyz (mulMV MV (point p))) (0, 0, -3) = 0.8).
  { rewrite <- Hcentre, Hiso, dist_origin. exact Hnorm. }
  split; [exact Hdist|].
  rewrite (affine_point MV p Hrow).
  destruct (xyz (mulMV MV (point p))) as [[x y] z].
  apply depth_near_centre in Hdist.
  replace z with (- - z) by ring.
  apply perspective_depth_between; lra.
Qed.

Lemma drawScene_pentagon_in_view_witness :
  let frame := (drawScene 640 480 initBuffers BLUE 1 2 ∅).1 in
  let v := point (vertexAt (position initBuffers) 0) in
  dist (xyz (mulMV (uModelViewMatrix frame) v)) (0, 0, -3) = 0.8 /\
  -1 <= ndc_z (mulMV (uProjectionMatrix frame)
                 (mulMV (uModelViewMatrix frame) v)) <= 1.
Proof. apply (drawScene_pentagon_in_view 640 480 BLUE 1 2 ∅ 0). lia. Defined.



(** ** The callbacks, one after the other *)

Lemma handle_state buffers e st h :
  (handle buffers e st h).1.2 = after e st.
Proof.
  destruct e; try reflexivity.
  cbn [handle after]. unfold bind at 1.
  pose proof (render_vars clientWidth clientHeight buffers st.1 h) as Hr.
  destruct (render clientWidth clientHeight buffers st.1 h) as [[frame s1] h1].
  cbn [fst snd] in *. rewrite Hr. reflexivity.
Qed.

Lemma run_cons buffers e rest st h :
  (run buffers (e :: rest) st h).1.2 =
  (run buffers rest (handle buffers e st h).1.2 (handle buffers e st h).2).1.2.
Proof.
  cbn [run]. unfold bind at 1.
  destruct (handle buffers e st h) as [[frames st1] h1]. cbn [fst snd].
  unfold bind. destruct (run buffers rest st1 h1) as [[frames' st2] h2].
  reflexivity.
Qed.

Lemma run_state buffers events : forall st h,
  (run buffers events st h).1.2 = foldl (fun st e => after e st) st events.
Proof.
  induction events as [|e rest IH]; intros st h; [reflexivity|].
  rewrite run_cons, IH, handle_state. reflexivity.
Qed.

Lemma vars_ok_after e st : vars_ok st.1 -> vars_ok (after e st).1.
Proof.
  destruct st as [s d]. destruct s as [c rx ry sx sy rot].
  unfold vars_ok. cbn [fst color rotationX rotationY rotationSpeedX rotationSpeedY].
  intros (Hc & HX & HY & Hr & Hpos).
  destruct e; cbn [after fst snd isRotating toggleRotation_click changeColor_click
                   resetView_click shareButton_click
                   color rotationX rotationY rotationSpeedX rotationSpeedY].
  - destruct rot;
      cbn [fst advance color rotationX rotationY rotationSpeedX rotationSpeedY];
      repeat split; try assumption; lra.
  - repeat split; assumption.
  - repeat split; try assumption.
    destruct (is_blue c); [right|left]; reflexivity.
  - repeat split; try assumption; lra.
  - repeat split; assumption.
Qed.

(** X11: whatever the refreshes and clicks that follow [main], in which
    order and how many, the colour is one of the two presets, the two
    speeds are 0.01 and 0.005, and [rotationX] is twice [rotationY] and
    not negative. *)
Theorem run_keeps_vars buffers events page h :
  let s := (run buffers events (main_vars, page) h).1.2.1 in
  (color s = BLUE \/ color s = RED) /\
  rotationSpeedX s = 0.01 /\ rotationSpeedY s = 0.005 /\
  rotationX s = 2 * rotationY s /\ 0 <= rotationY s.
Proof.
  cbv zeta. rewrite run_state.
  assert (H0 : vars_ok (main_vars, page).1).
  { unfold vars_ok, main_vars. cbn. repeat split; try lra. left. reflexivity. }
  revert H0. generalize (main_vars, page).
  induction events as [|e rest IH]; intros st Hst; [exact Hst|].
  cbn [foldl]. apply IH, vars_ok_after, Hst.
Qed.




(** X13: the four handlers touch disjoint parts of the state: clicks on
    two different buttons give the same state in either order. *)
Theorem handlers_commute href st :
  toggleRotation_click (changeColor_click st)
    = changeColor_click (toggleRotation_click st) /\
  toggleRotation_click (resetView_click st)
    = resetView_click (toggleRotation_click st) /\
  toggleRotation_click (shareButton_click href st)
    = shareButton_click href (toggleRotation_click st) /\
  changeColor_click (resetView_click st)
    = resetView_click (changeColor_click st) /\
  changeColor_click (shareButton_click href st)
    = shareButton_click href (changeColor_click st) /\
  resetView_click (shareButton_click href st)
    = shareButton_click href (resetView_click st).
Proof. destruct st as [s d]. repeat split. Qed.

Lemma foldl_refresh_paused canvas : forall st,
  isRotating st.1 = false ->
  foldl (fun st e => after e st) st (map (fun c => Refresh c.1 c.2) canvas) = st.
Proof.
  induction canvas as [|[w ht] rest IH]; intros st Hp; [reflexivity|].
  cbn [map foldl after fst snd]. rewrite Hp.
  destruct st as [s d]. apply IH, Hp.
Qed.

Lemma foldl_refresh_rotating canvas : forall st,
  isRotating st.1 = true ->
  let st' := foldl (fun st e => after e st) st
               (map (fun c => Refresh c.1 c.2) canvas) in
  rotationX st'.1 = rotationX st.1 + INR (length canvas) * rotationSpeedX st.1 /\
  rotationY st'.1 = rotationY st.1 + INR (length canvas) * rotationSpeedY st.1.
Proof.
  induction canvas as [|[w ht] rest IH]; intros st Hr.
  - cbn. split; lra.
  - cbn [map foldl after fst snd]. rewrite Hr.
    destruct (IH (advance st.1, st.2)) as [HX HY]; [exact Hr|].
    cbv zeta. rewrite HX, HY.
    change (length ((w, ht) :: rest)) with (S (length rest)). rewrite S_INR.
    cbn [fst advance rotationX rotationY rotationSpeedX rotationSpeedY].
    split; lra.
Qed.

(** X14: pausing freezes the angles and resuming picks them up where
    they were: after a click on pause, any number of refreshes, a second
    click and N more refreshes, a rotating scene has turned by N times
    the speeds only, and while paused the variables do not change. *)
Theorem pause_then_resume buffers paused resumed st h :
  isRotating st.1 = true ->
  let refreshes canvas := map (fun c : R * R => Refresh c.1 c.2) canvas in
  (run buffers (ToggleRotationClick :: refreshes paused)
     st h).1.2 = toggleRotation_click st /\
  let st' := (run buffers
                (ToggleRotationClick :: refreshes paused ++
                 ToggleRotationClick :: refreshes resumed) st h).1.2 in
  rotationX st'.1 = rotationX st.1 + INR (length resumed) * rotationSpeedX st.1 /\
  rotationY st'.1 = rotationY st.1 + INR (length resumed) * rotationSpeedY st.1.
Proof.
  intros Hrot refreshes. subst refreshes. cbv beta.
  assert (Hp : isRotating (toggleRotation_click st).1 = false).
  { destruct st as [s d]. cbn. cbn in Hrot. rewrite Hrot. reflexivity. }
  rewrite !run_state. cbn [foldl after]. split.
  - apply foldl_refresh_paused, Hp.
  - rewrite foldl_app, foldl_refresh_paused by exact Hp.
    cbn [foldl after].
    assert (Hback : (toggleRotation_click (toggleRotation_click st)).1 = st.1).
    { destruct st as [s d]. destruct s as [c rx ry sx sy rot].
      cbn. rewrite negb_involutive. reflexivity. }
    destruct (foldl_refresh_rotating resumed
                (toggleRotation_click (toggleRotation_click st))) as [HX HY].
    { rewrite Hback. exact Hrot. }
    cbv zeta in HX, HY. rewrite Hback in HX, HY. split; assumption.
Qed.

Lemma pause_then_resume_witness :
  (run initBuffers
     (ToggleRotationClick :: map (fun c : R * R => Refresh c.1 c.2) [(640, 480)])
     (main_vars, sample_page) ∅).1.2
  = toggleRotation_click (main_vars, sample_page).
Proof.
  refine (proj1 (pause_then_resume initBuffers [(640, 480)] []
                   (main_vars, sample_page) ∅ _)).
  reflexivity.
Defined.

(** ** The frames of the render loop *)

Lemma render_frame w ht buffers s h :
  (render w ht buffers s h).1.1 =
    (drawScene w ht buffers (color s) (rotationX s) (rotationY s) ∅).1.
Proof.
  unfold render, bind.
  pose proof (drawScene_frame w ht buffers (color s) (rotationX s) (rotationY s) h)
    as Hf.
  destruct (drawScene w ht buffers (color s) (rotationX s) (rotationY s) h)
    as [frame h1].
  cbn [fst snd ret] in *. rewrite Hf, drawScene_frame. reflexivity.
Qed.

Lemma ticks_cons_frames w ht rest buffers s h :
  (ticks ((w, ht) :: rest) buffers s h).1.1 =
  (render w ht buffers s h).1.1 ::
  (ticks rest buffers (render w ht buffers s h).1.2 (render w ht buffers s h).2).1.1.
Proof.
  cbn [ticks]. unfold bind at 1.
  destruct (render w ht buffers s h) as [[frame s1] h1]. cbn [fst snd].
  unfold bind. destruct (ticks rest buffers s1 h1) as [[frames s2] h2].
  reflexivity.
Qed.

Lemma ticks_length canvas buffers : forall s h,
  length (ticks canvas buffers s h).1.1 = length canvas.
Proof.
  induction canvas as [|[w ht] rest IH]; intros s h; [reflexivity|].
  rewrite ticks_cons_frames. cbn [length]. f_equal. apply IH.
Qed.

Lemma same_frame w ht buffers col rx rx' ry ry' :
  rx = rx' -> ry = ry' ->
  Some (drawScene w ht buffers col rx ry ∅).1
    = Some (drawScene w ht buffers col rx' ry' ∅).1.
Proof. intros -> ->. reflexivity. Qed.

(** X15: [render] draws before it advances: the frame of refresh number
    [k] (counting from 0) shows the angles the loop started with plus [k]
    times the speeds while rotating, and the starting angles themselves
    while paused; there is one frame per refresh, in the colour of the
    time. *)
Theorem ticks_frames canvas buffers : forall s h k w ht,
  canvas !! k = Some (w, ht) ->
  let dx := if isRotating s then rotationSpeedX s else 0 in
  let dy := if isRotating s then rotationSpeedY s else 0 in
  length (ticks canvas buffers s h).1.1 = length canvas /\
  (ticks canvas buffers s h).1.1 !! k =
    Some (drawScene w ht buffers (color s)
            (rotationX s + INR k * dx) (rotationY s + INR k * dy) ∅).1.
Proof.
  induction canvas as [|[w0 ht0] rest IH]; intros s h k w ht Hk; [discriminate Hk|].
  cbv zeta. rewrite ticks_cons_frames.
  pose proof (render_vars w0 ht0 buffers s h) as Hs1.
  set (s1 := (render w0 ht0 buffers s h).1.2) in *.
  set (h1 := (render w0 ht0 buffers s h).2).
  split; [cbn [length]; f_equal; apply ticks_length|].
  destruct k as [|k].
  - cbn in Hk. injection Hk as -> ->. cbn [lookup list_lookup].
    rewrite render_frame. apply same_frame; change (INR 0) with 0; ring.
  - cbn in Hk.
    destruct (IH s1 h1 k w ht Hk) as [_ Hf]. cbv zeta in Hf.
    refine (eq_trans Hf _).
    rewrite Hs1, S_INR.
    destruct (isRotating s) eqn:Hrot;
      cbn [advance color rotationX rotationY rotationSpeedX rotationSpeedY isRotating];
      rewrite ?Hrot; apply same_frame; ring.
Qed.

Lemma ticks_frames_witness :
  (ticks [(640, 480); (800, 600)] initBuffers main_vars ∅).1.1 !! 1%nat =
    Some (drawScene 800 600 initBuffers BLUE
            (0 + INR 1 * 0.01) (0 + INR 1 * 0.005) ∅).1.
Proof.
  refine (proj2 (ticks_frames [(640, 480); (800, 600)] initBuffers
                   main_vars ∅ 1%nat 800 600 _)).
  reflexivity.
Defined.
(** ** The shape of the pentagon *)

(** The chord between two points of a circle. *)
Lemma chord radius a b :
  0 <= radius ->
  dist (0 + radius * cos a, 0 + radius * sin a, 0)
       (0 + radius * cos b, 0 + radius * sin b, 0)
    = radius * sqrt (2 - 2 * cos (a - b)).
Proof.
  intros Hr. unfold dist, norm. rewrite cos_minus.
  pose proof (sin2_cos2 a) as Ha. pose proof (sin2_cos2 b) as Hb.
  unfold Rsqr in Ha, Hb.
  replace (_ + _ + _)
    with ((radius * radius) * (2 - 2 * (cos a * cos b + sin a * sin b)))
    by nsatz.
  rewrite sqrt_mult_alt by nra. rewrite sqrt_square by assumption. reflexivity.
Qed.

Lemma cos_fifth_turn_back : cos (- (2 * PI / 5)) = cos (2 * PI / 5).
Proof. apply cos_neg. Qed.

Lemma cos_four_fifths_turn : cos (4 * (2 * PI / 5)) = cos (2 * PI / 5).
Proof.
  replace (4 * (2 * PI / 5)) with (- (2 * PI / 5) + 2 * PI) by field.
  rewrite cos_plus, cos_2PI, sin_2PI, cos_neg. ring.
Qed.

Lemma pentagon_turn k :
  (k < 5)%nat ->
  cos ((INR k * 2 * PI / 5 - PI / 2)
       - (INR ((k + 1) mod 5) * 2 * PI / 5 - PI / 2)) = cos (2 * PI / 5).
Proof.
  intros Hk.
  do 4 (destruct k as [|k];
        [ rewrite <- cos_fifth_turn_back;
          match goal with |- cos ?a = cos ?b =>
            replace a with b by (simpl; lra) end;
          reflexivity |]).
  destruct k as [|k]; [|lia].
  rewrite <- cos_four_fifths_turn.
  match goal with |- cos ?a = cos ?b =>
    replace a with b by (simpl; lra) end.
  reflexivity.
Qed.

(** X17: the five vertices form a regular pentagon: each of the five
    sides, the one closing the polygon from the last vertex to the first
    included, has the same length, [radius * sqrt (2 - 2 cos (2 PI / 5))]. *)
Theorem pentagon_regular radius k :
  0 <= radius -> (k < 5)%nat ->
  dist (vertexAt (pentagon radius 0 0) k)
       (vertexAt (pentagon radius 0 0) ((k + 1) mod 5))
    = pentagon_side radius.
Proof.
  intros Hr Hk. unfold pentagon_side.
  rewrite !vertexAt_pentagon by (try apply Nat.mod_upper_bound; lia).
  cbv zeta. rewrite chord by assumption.
  rewrite pentagon_turn by assumption. reflexivity.
Qed.

Lemma pentagon_regular_witness :
  dist (vertexAt (pentagon 0.8 0 0) 4) (vertexAt (pentagon 0.8 0 0) ((4 + 1) mod 5))
    = pentagon_side 0.8.
Proof. apply (pentagon_regular 0.8 4); [lra | lia]. Defined.

(** X16: for a radius that is not negative, [pentagon] pushes fifteen
    numbers, that is five vertices, each at the distance [radius] from the
    origin and each with [z = 0]. *)
Theorem pentagon_vertices_on_circle radius k :
  0 <= radius -> (k < 5)%nat ->
  length (pentagon radius 0 0) = (3 * 5)%nat /\
  norm (vertexAt (pentagon radius 0 0) k) = radius /\
  (vertexAt (pentagon radius 0 0) k).2 = 0.
Proof.
  intros Hr Hk. destruct (pentagon_on_circle radius Hr) as [Hlen Hv].
  split; [exact Hlen | apply Hv, Hk].
Qed.

Lemma pentagon_vertices_on_circle_witness :
  norm (vertexAt (pentagon 0.8 0 0) 2) = 0.8.
Proof.
  refine (proj1 (proj2 (pentagon_vertices_on_circle 0.8 2 _ _))); [lra | lia].
Defined.

(** ** Shaders *)

Section Shaders.
Variable COMPILE_STATUS : list Call -> nat -> bool.
Variable getShaderInfoLog : list Call -> nat -> string.
Variable LINK_STATUS : list Call -> nat -> bool.
Variable getProgramInfoLog : list Call -> nat -> string.

Lemma loadShader_run type source log :
  let shader := length log in
  let compiled :=
    log ++ [CreateShader type; ShaderSource shader source; CompileShader shader] in
  loadShader COMPILE_STATUS getShaderInfoLog type source log =
    if COMPILE_STATUS compiled shader then (Some shader, compiled)
    else (None,
          compiled ++
            [Alert ("An error occurred compiling the shaders: "
                      +:+ getShaderInfoLog compiled shader);
             DeleteShader shader]).
Proof.
  cbv zeta. unfold loadShader, gbind, make, call, query, gret.
  rewrite <- !app_assoc. cbn [app].
  destruct (COMPILE_STATUS _ _); cbn [negb]; [reflexivity|].
  rewrite <- !app_assoc. reflexivity.
Qed.

(** X18: [loadShader] creates one shader, gives it the source and
    compiles it, in every case.  It returns [null] exactly when the
    context reports the compilation as failed, and then it has raised one
    alert and deleted the shader it created; a shader it returns has not
    been deleted, and no alert was raised for it. *)
Theorem loadShader_outcome type source log :
  let r := loadShader COMPILE_STATUS getShaderInfoLog type source log in
  let shader := length log in
  exists new,
    r.2 = log ++ new /\
    omap builds new = [CreateShader type; CompileShader shader] /\
    (r.1 = None \/ r.1 = Some shader) /\
    (r.1 = None <->
       COMPILE_STATUS
         (log ++ [CreateShader type; ShaderSource shader source;
                  CompileShader shader]) shader = false) /\
    (r.1 = None ->
       omap deleted new = [shader] /\ length (omap alerted new) = 1%nat) /\
    (r.1 = Some shader ->
       omap deleted new = [] /\ omap alerted new = []).
Proof.
  cbv zeta. rewrite loadShader_run. cbv zeta.
  destruct (COMPILE_STATUS _ _) eqn:Hc; cbn [fst snd].
  - eexists. split; [reflexivity|].
    repeat split; try reflexivity; try discriminate; auto.
  - rewrite <- !app_assoc. cbn [app].
    eexists. split; [reflexivity|].
    repeat split; try reflexivity; try discriminate; auto.
Qed.



End Shaders.
